(** * The vertex data contract of [src/metal_shaders/shader_types.h]

    The header declares two plain records, [VertexIn] and [VertexOut], whose
    members are Metal vector types decorated with binding annotations.  The
    development below embeds

    - the values of the records (a Metal [float] is kept as its IEEE 754
      binary32 bit pattern, so that equality of values is bit identity),
    - the declarations themselves as data (member order, member types and the
      [[[attribute(n)]]] / [[[position]]] annotations), and
    - the record layout those declarations induce (offsets, sizes, alignment).
*)

From Stdlib Require Import ZArith List String Bool Lia PeanoNat.
From coqutil Require Import Byte Word.LittleEndianList.
Import ListNotations.

(* ===================================================================== *)
(** ** Scalars and vectors *)
(* ===================================================================== *)

(** A Metal [float]: 32 bits, IEEE 754 binary32.  The value is its bit
    pattern, an integer below [2^32]. *)
Definition float : Type := Z.

Definition float_ok (f : float) : Prop := (0 <= f < 2 ^ 32)%Z.

(** [float3]: components [x], [y], [z]. *)
Module float3.
Record float3 : Type := make { x : float; y : float; z : float }.
End float3.
Abbreviation float3 := float3.float3.

(** [float4]: components [x], [y], [z], [w]. *)
Module float4.
Record float4 : Type := make { x : float; y : float; z : float; w : float }.
End float4.
Abbreviation float4 := float4.float4.

Definition float3_ok (v : float3) : Prop :=
  float_ok (float3.x v) /\ float_ok (float3.y v) /\ float_ok (float3.z v).

Definition float4_ok (v : float4) : Prop :=
  float_ok (float4.x v) /\ float_ok (float4.y v) /\
  float_ok (float4.z v) /\ float_ok (float4.w v).

(* ===================================================================== *)
(** ** The two records *)
(* ===================================================================== *)

(** [struct VertexIn { float3 position; float4 color; };] *)
Module VertexIn.
Record VertexIn : Type := make { position : float3; color : float4 }.
End VertexIn.
Abbreviation VertexIn := VertexIn.VertexIn.

(** [struct VertexOut { float4 position; float4 color; };] *)
Module VertexOut.
Record VertexOut : Type := make { position : float4; color : float4 }.
End VertexOut.
Abbreviation VertexOut := VertexOut.VertexOut.

Definition VertexIn_ok (v : VertexIn) : Prop :=
  float3_ok (VertexIn.position v) /\ float4_ok (VertexIn.color v).

(* ===================================================================== *)
(** ** The declarations as data *)
(* ===================================================================== *)

(** Scalar kinds of Metal vector members; the header only uses [float]. *)
Inductive scalar_kind : Type := kind_float.

(** The member types that occur in the header. *)
Inductive ty : Type := ty_float3 | ty_float4.

Definition components (t : ty) : nat :=
  match t with ty_float3 => 3 | ty_float4 => 4 end.

Definition scalar_of (t : ty) : scalar_kind :=
  match t with ty_float3 => kind_float | ty_float4 => kind_float end.

(** The annotations that occur in the header: [[[attribute(n)]]] and
    [[[position]]]. *)
Inductive annotation : Type :=
| attribute (n : nat)
| position_semantic.

Record field_decl : Type := mk_field {
  field_name  : string;
  field_type  : ty;
  field_annot : option annotation
}.

(** A [struct] declaration: its members in declaration order, and the member
    functions it declares. *)
Record struct_decl : Type := mk_struct {
  struct_name    : string;
  struct_fields  : list field_decl;
  struct_methods : list string
}.

Definition VertexIn_decl : struct_decl :=
  mk_struct "VertexIn"
    [ mk_field "position" ty_float3 (Some (attribute 0));
      mk_field "color"    ty_float4 (Some (attribute 1)) ]
    [].

Definition VertexOut_decl : struct_decl :=
  mk_struct "VertexOut"
    [ mk_field "position" ty_float4 (Some position_semantic);
      mk_field "color"    ty_float4 None ]
    [].

(** Values a member can hold. *)
Inductive value : Type :=
| Vfloat3 (v : float3)
| Vfloat4 (v : float4).

Definition type_of_value (v : value) : ty :=
  match v with Vfloat3 _ => ty_float3 | Vfloat4 _ => ty_float4 end.

(** Member access by name. *)
Definition VertexIn_field (v : VertexIn) (name : string) : option value :=
  if String.eqb name "position" then Some (Vfloat3 (VertexIn.position v))
  else if String.eqb name "color" then Some (Vfloat4 (VertexIn.color v))
  else None.

Definition VertexOut_field (v : VertexOut) (name : string) : option value :=
  if String.eqb name "position" then Some (Vfloat4 (VertexOut.position v))
  else if String.eqb name "color" then Some (Vfloat4 (VertexOut.color v))
  else None.

Definition find_field (d : struct_decl) (name : string) : option field_decl :=
  find (fun f => String.eqb (field_name f) name) (struct_fields d).

Definition field_names (d : struct_decl) : list string :=
  map field_name (struct_fields d).

Definition field_index_of (d : struct_decl) (name : string) : option nat :=
  let fix go (i : nat) (fs : list field_decl) : option nat :=
    match fs with
    | [] => None
    | f :: fs' => if String.eqb (field_name f) name then Some i else go (S i) fs'
    end in
  go 0 (struct_fields d).

(** *** Attribute bindings *)

Definition has_attribute (i : nat) (f : field_decl) : bool :=
  match field_annot f with
  | Some (attribute j) => Nat.eqb i j
  | _ => false
  end.

Definition is_attribute (f : field_decl) : bool :=
  match field_annot f with
  | Some (attribute _) => true
  | _ => false
  end.

Definition has_position_semantic (f : field_decl) : bool :=
  match field_annot f with
  | Some position_semantic => true
  | _ => false
  end.

(** The member bound to attribute index [i], if any. *)
Definition attribute_field (d : struct_decl) (i : nat) : option field_decl :=
  find (has_attribute i) (struct_fields d).

(** All attribute indices a declaration binds, in declaration order. *)
Definition bound_attributes (d : struct_decl) : list nat :=
  flat_map (fun f => match field_annot f with
                     | Some (attribute j) => [j]
                     | _ => []
                     end) (struct_fields d).

(** What attribute index [i] resolves to on an instance of [VertexIn]. *)
Definition resolve_attribute (v : VertexIn) (i : nat) : option value :=
  match attribute_field VertexIn_decl i with
  | Some f => VertexIn_field v (field_name f)
  | None => None
  end.

(* ===================================================================== *)
(** ** Record layout *)
(* ===================================================================== *)

(** Size and alignment, in bytes, of each member type. *)
Record type_layout : Type := mk_layout {
  size_of  : ty -> nat;
  align_of : ty -> nat
}.

Definition sizeof_float : nat := 4.

(** The layout of the Metal shading language, which the header is written in
    ([#include <metal_stdlib>], [using namespace metal]): a three-component
    vector has the size and the alignment of a four-component one.
    [float3] and [float4] both occupy 16 bytes and are 16-byte aligned. *)
Definition metal_layout : type_layout :=
  mk_layout
    (fun t => match t with ty_float3 => 16 | ty_float4 => 16 end)
    (fun t => match t with ty_float3 => 16 | ty_float4 => 16 end).

(** A tightly packed layout: a vector is its components and nothing else,
    aligned as a scalar (Metal's [packed_float3], [packed_float4]). *)
Definition packed_layout : type_layout :=
  mk_layout (fun t => components t * sizeof_float) (fun _ => sizeof_float).

(** A layout leaves room for every component and has positive alignments. *)
Definition layout_ok (L : type_layout) : Prop :=
  forall t, components t * sizeof_float <= size_of L t /\ 0 < align_of L t.

(** Round [n] up to the next multiple of [a]. *)
Definition align_up (n a : nat) : nat := ((n + a - 1) / a) * a.

(** Offsets of the members, laid out in declaration order from [off]. *)
Fixpoint field_offsets_from (L : type_layout) (off : nat) (fs : list field_decl)
  : list (string * nat) :=
  match fs with
  | [] => []
  | f :: fs' =>
      let o := align_up off (align_of L (field_type f)) in
      (field_name f, o) :: field_offsets_from L (o + size_of L (field_type f)) fs'
  end.

(** First byte after the last member. *)
Fixpoint fields_end (L : type_layout) (off : nat) (fs : list field_decl) : nat :=
  match fs with
  | [] => off
  | f :: fs' =>
      fields_end L (align_up off (align_of L (field_type f)) + size_of L (field_type f)) fs'
  end.

Definition struct_align (L : type_layout) (d : struct_decl) : nat :=
  fold_right (fun f a => Nat.max (align_of L (field_type f)) a) 1 (struct_fields d).

(** [sizeof]: the end of the last member rounded up to the record's alignment. *)
Definition struct_size (L : type_layout) (d : struct_decl) : nat :=
  align_up (fields_end L 0 (struct_fields d)) (struct_align L d).

Fixpoint assoc_offset (name : string) (l : list (string * nat)) : option nat :=
  match l with
  | [] => None
  | (n, o) :: l' => if String.eqb n name then Some o else assoc_offset name l'
  end.

Definition field_offset (L : type_layout) (d : struct_decl) (name : string) : option nat :=
  assoc_offset name (field_offsets_from L 0 (struct_fields d)).

(** Sum of the member sizes, and the bytes of component data alone. *)
Definition sum_field_sizes (L : type_layout) (d : struct_decl) : nat :=
  list_sum (map (fun f => size_of L (field_type f)) (struct_fields d)).

Definition data_bytes (d : struct_decl) : nat :=
  list_sum (map (fun f => components (field_type f) * sizeof_float) (struct_fields d)).

(* ===================================================================== *)
(** ** Buffers *)
(* ===================================================================== *)

Definition buffer : Type := list byte.

Definition bind {A B : Type} (m : option A) (k : A -> option B) : option B :=
  match m with Some a => k a | None => None end.

Notation "x <- m ;; k" := (bind m (fun x => k))
  (at level 61, m at next level, right associativity).

(** Overwrite [length bs] bytes at [off]; no result outside the buffer. *)
Definition store_bytes (buf : buffer) (off : nat) (bs : list byte) : option buffer :=
  if off + List.length bs <=? List.length buf
  then Some (firstn off buf ++ bs ++ skipn (off + List.length bs) buf)%list
  else None.

(** Read [n] bytes at [off]; no result outside the buffer. *)
Definition load_bytes (buf : buffer) (off n : nat) : option (list byte) :=
  if off + n <=? List.length buf
  then Some (firstn n (skipn off buf))
  else None.

(** A [float] in memory: the four bytes of its bit pattern, least significant
    first. *)
Definition store_float (buf : buffer) (off : nat) (f : float) : option buffer :=
  store_bytes buf off (le_split sizeof_float f).

Definition load_float (buf : buffer) (off : nat) : option float :=
  bs <- load_bytes buf off sizeof_float ;; Some (le_combine bs).

Definition store_float3 (buf : buffer) (off : nat) (v : float3) : option buffer :=
  b1 <- store_float buf off (float3.x v) ;;
  b2 <- store_float b1 (off + 4) (float3.y v) ;;
  store_float b2 (off + 8) (float3.z v).

Definition load_float3 (buf : buffer) (off : nat) : option float3 :=
  x <- load_float buf off ;;
  y <- load_float buf (off + 4) ;;
  z <- load_float buf (off + 8) ;;
  Some (float3.make x y z).

Definition store_float4 (buf : buffer) (off : nat) (v : float4) : option buffer :=
  b1 <- store_float buf off (float4.x v) ;;
  b2 <- store_float b1 (off + 4) (float4.y v) ;;
  b3 <- store_float b2 (off + 8) (float4.z v) ;;
  store_float b3 (off + 12) (float4.w v).

Definition load_float4 (buf : buffer) (off : nat) : option float4 :=
  x <- load_float buf off ;;
  y <- load_float buf (off + 4) ;;
  z <- load_float buf (off + 8) ;;
  w <- load_float buf (off + 12) ;;
  Some (float4.make x y z w).

(** Modelled from the spec: the header declares the record but no code that
    moves one in or out of a vertex buffer (the host-side writer and the
    vertex fetch are not part of it).  A record is written by placing each
    member at the offset the record's layout gives it, from the element's
    first byte [base]. *)
Definition write_VertexIn (L : type_layout) (buf : buffer) (base : nat) (v : VertexIn)
  : option buffer :=
  po <- field_offset L VertexIn_decl "position" ;;
  co <- field_offset L VertexIn_decl "color" ;;
  b1 <- store_float3 buf (base + po) (VertexIn.position v) ;;
  store_float4 b1 (base + co) (VertexIn.color v).

(** Modelled from the spec: reading a record back through the same layout
    (the reader, too, is absent from the header). *)
Definition read_VertexIn (L : type_layout) (buf : buffer) (base : nat) : option VertexIn :=
  po <- field_offset L VertexIn_decl "position" ;;
  co <- field_offset L VertexIn_decl "color" ;;
  p <- load_float3 buf (base + po) ;;
  c <- load_float4 buf (base + co) ;;
  Some (VertexIn.make p c).

(* ===================================================================== *)
(** ** Float constants *)
(* ===================================================================== *)

(** [0.0f]: all bits clear.  [1.0f]: sign 0, biased exponent 127, fraction
    0. *)
Definition float_zero : float := 0%Z.
Definition float_one : float := 0x3f800000%Z.

(* ===================================================================== *)
(** ** The vertex stage *)
(* ===================================================================== *)

(** [float4(p, w)]: a three-component vector extended by a fourth component. *)
Definition append_w (w : float) (p : float3) : float4 :=
  float4.make (float3.x p) (float3.y p) (float3.z p) w.

(** Modelled from the spec: the vertex-stage function is not in the header,
    which only declares its argument and result types.  The identity-like
    stage appends [w = 1] to the position and carries the colour through
    unchanged. *)
Definition identity_stage (v : VertexIn) : VertexOut :=
  VertexOut.make (append_w float_one (VertexIn.position v)) (VertexIn.color v).

(** Two sample records: red vertices at the origin and at [(1, 0, 0)]. *)
Definition red : float4 := float4.make float_one float_zero float_zero float_one.

Definition red_at_origin : VertexIn :=
  VertexIn.make (float3.make float_zero float_zero float_zero) red.

Definition red_at_unit_x : VertexIn :=
  VertexIn.make (float3.make float_one float_zero float_zero) red.

(* ===================================================================== *)
(** ** Member reads as state-passing operations *)
(* ===================================================================== *)

(** A read of a member, with the record threaded through as the state: the
    result and the record after the read. *)
Definition read_position (v : VertexIn) : float3 * VertexIn :=
  (VertexIn.position v, v).

Definition read_color (v : VertexIn) : float4 * VertexIn :=
  (VertexIn.color v, v).

(* ===================================================================== *)
(** ** Arrays of records *)
(* ===================================================================== *)

(** First byte of element [i] of an array of [d]: elements are [sizeof]
    apart. *)
Definition element_base (L : type_layout) (d : struct_decl) (i : nat) : nat :=
  i * struct_size L d.

(** First byte and length of the component data of member [name] in element
    [i] of an array of [d]; nothing for a name [d] does not declare. *)
Definition member_range (L : type_layout) (d : struct_decl) (i : nat) (name : string)
  : option (nat * nat) :=
  f <- find_field d name ;;
  o <- field_offset L d name ;;
  Some (element_base L d i + o, components (field_type f) * sizeof_float).

Definition ranges_disjoint (r1 r2 : nat * nat) : Prop :=
  fst r1 + snd r1 <= fst r2 \/ fst r2 + snd r2 <= fst r1.

(** Every alignment of the layout is a power of two. *)
Definition pow2_aligned (L : type_layout) : Prop :=
  forall t, exists k, align_of L t = 2 ^ k.

(* ===================================================================== *)
(** ** The header as a step of a translation unit *)
(* ===================================================================== *)

(** What a translation unit has seen so far: the macros defined, the
    namespaces declared, the namespaces named in a using-directive at global
    scope, and the struct definitions, each in order of appearance. *)
Record unit_state : Type := mk_unit {
  macros          : list string;
  namespaces      : list string;
  used_namespaces : list string;
  declared        : list struct_decl
}.

Definition defined (m : string) (st : unit_state) : bool :=
  existsb (String.eqb m) (macros st).

Definition namespace_declared (n : string) (st : unit_state) : bool :=
  existsb (String.eqb n) (namespaces st).

Definition struct_declared (n : string) (st : unit_state) : bool :=
  existsb (fun d => String.eqb (struct_name d) n) (declared st).

(** [#define m] with an empty body; defining it again the same way changes
    nothing. *)
Definition define (m : string) (st : unit_state) : unit_state :=
  if defined m st then st
  else mk_unit (m :: macros st) (namespaces st) (used_namespaces st) (declared st).

(** [using namespace n;] names a namespace that must have been declared. *)
Definition using_namespace (n : string) (st : unit_state) : option unit_state :=
  if namespace_declared n st
  then Some (mk_unit (macros st) (namespaces st) (used_namespaces st ++ [n]) (declared st))
  else None.

(** [struct d { ... };] at global scope: a second definition of the same
    name is an error.  Type names and macro expansion are not tracked: the
    member types are taken as known to the unit and the tokens of the
    definition as they are written, so a success here is a success of the
    compiler only for units where that holds, while a failure here is always
    a failure of the compiler. *)
Definition declare_struct (d : struct_decl) (st : unit_state) : option unit_state :=
  if struct_declared (struct_name d) st then None
  else Some (mk_unit (macros st) (namespaces st) (used_namespaces st) (declared st ++ [d])).

(** The guard macro of the header. *)
Definition guard : string := "ShaderTypes_h".

(** The lines between [#define ShaderTypes_h] and [#endif].  The two system
    headers are not part of the repository: [sys h] is what including
    [<h>] does to the unit, or nothing when it fails. *)
Definition header_body (sys : string -> unit_state -> option unit_state)
           (st : unit_state) : option unit_state :=
  let s0 := define guard st in
  s1 <- sys "simd/simd.h"%string s0 ;;
  s2 <- sys "metal_stdlib"%string s1 ;;
  s3 <- using_namespace "metal" s2 ;;
  s4 <- declare_struct VertexIn_decl s3 ;;
  declare_struct VertexOut_decl s4.

(** [#include "shader_types.h"]: the whole file is skipped when the guard is
    already defined. *)
Definition shader_types_h (sys : string -> unit_state -> option unit_state)
           (st : unit_state) : option unit_state :=
  if defined guard st then Some st else header_body sys st.

(** A system header keeps the guard macro defined. *)
Definition keeps_guard (sys : string -> unit_state -> option unit_state) : Prop :=
  forall h s s', sys h s = Some s' -> defined guard s = true -> defined guard s' = true.

(** A system header removes no struct definition. *)
Definition keeps_structs (sys : string -> unit_state -> option unit_state) : Prop :=
  forall h s s' n, sys h s = Some s' ->
                   struct_declared n s = true -> struct_declared n s' = true.

(** A stand-in for the two system headers, to run the header on: the Metal
    standard library declares namespace [metal], and neither header touches
    macros or struct definitions of the unit. *)
Definition plain_sys (h : string) (st : unit_state) : option unit_state :=
  if String.eqb h "metal_stdlib"
  then Some (mk_unit (macros st) (namespaces st ++ ["metal"%string])
                     (used_namespaces st) (declared st))
  else Some st.

Definition empty_unit : unit_state := mk_unit [] [] [] [].

(* ===================================================================== *)
(** * Properties *)
(* ===================================================================== *)

(** ** Arithmetic of the layout *)

Lemma align_up_ge (n a : nat) : 0 < a -> n <= align_up n a.
Proof.
  intros Ha. unfold align_up.
  pose proof (Nat.div_mod_eq (n + a - 1) a) as E.
  pose proof (Nat.mod_upper_bound (n + a - 1) a) as B.
  nia.
Qed.

Lemma align_up_0 (a : nat) : align_up 0 a = 0.
Proof.
  unfold align_up. destruct a as [|a]; [reflexivity|].
  rewrite Nat.div_small; lia.
Qed.

Lemma metal_layout_ok : layout_ok metal_layout.
Proof. intros []; cbv; lia. Qed.

Lemma packed_layout_ok : layout_ok packed_layout.
Proof. intros []; cbv; lia. Qed.

Section Offsets.
Variable L : type_layout.

Let a3 := align_of L ty_float3.
Let a4 := align_of L ty_float4.
Let s3 := size_of L ty_float3.
Let s4 := size_of L ty_float4.

Lemma VertexIn_position_offset :
  field_offset L VertexIn_decl "position" = Some 0.
Proof. unfold field_offset. cbn. now rewrite align_up_0. Qed.

Lemma VertexIn_color_offset :
  field_offset L VertexIn_decl "color" = Some (align_up s3 a4).
Proof. unfold field_offset. cbn. now rewrite align_up_0. Qed.

Lemma VertexIn_size :
  struct_size L VertexIn_decl = align_up (align_up s3 a4 + s4) (Nat.max a3 (Nat.max a4 1)).
Proof. unfold struct_size, struct_align. cbn. now rewrite align_up_0. Qed.

Lemma VertexOut_position_offset :
  field_offset L VertexOut_decl "position" = Some 0.
Proof. unfold field_offset. cbn. now rewrite align_up_0. Qed.

Lemma VertexOut_color_offset :
  field_offset L VertexOut_decl "color" = Some (align_up s4 a4).
Proof. unfold field_offset. cbn. now rewrite align_up_0. Qed.

Hypothesis HL : layout_ok L.

Lemma VertexIn_color_after_position : 12 <= align_up s3 a4.
Proof.
  destruct (HL ty_float3) as [H3 _], (HL ty_float4) as [_ H4].
  unfold sizeof_float in H3; cbn in H3. pose proof (align_up_ge s3 a4 H4). subst s3 a4. lia.
Qed.

Lemma VertexIn_color_fits : align_up s3 a4 + 16 <= struct_size L VertexIn_decl.
Proof.
  rewrite VertexIn_size.
  destruct (HL ty_float4) as [H4 _]. unfold sizeof_float in H4; cbn in H4.
  pose proof (align_up_ge (align_up s3 a4 + s4) (Nat.max a3 (Nat.max a4 1))).
  subst s4. lia.
Qed.

Lemma VertexOut_color_after_position : 16 <= align_up s4 a4.
Proof.
  destruct (HL ty_float4) as [H3 H4].
  unfold sizeof_float in H3; cbn in H3. pose proof (align_up_ge s4 a4 H4). subst s4 a4. lia.
Qed.
End Offsets.

(** ** Buffers: a store is seen by a load of the same bytes and by no other *)

Lemma bind_Some {A B : Type} (m : option A) (k : A -> option B) (b : B) :
  bind m k = Some b -> exists a, m = Some a /\ k a = Some b.
Proof. destruct m as [a|]; cbn; [eauto | discriminate]. Qed.

Lemma store_bytes_inv (buf : buffer) (off : nat) (bs : list byte) (buf' : buffer) :
  store_bytes buf off bs = Some buf' ->
  off + List.length bs <= List.length buf /\
  buf' = (firstn off buf ++ bs ++ skipn (off + List.length bs) buf)%list.
Proof.
  unfold store_bytes. destruct (Nat.leb_spec (off + List.length bs) (List.length buf));
    [intros [= <-]; auto | discriminate].
Qed.

Lemma store_bytes_Some (buf : buffer) (off : nat) (bs : list byte) :
  off + List.length bs <= List.length buf ->
  exists buf', store_bytes buf off bs = Some buf'.
Proof.
  intros H. unfold store_bytes.
  destruct (Nat.leb_spec (off + List.length bs) (List.length buf)); [eauto | lia].
Qed.

Lemma store_bytes_length (buf : buffer) (off : nat) (bs : list byte) (buf' : buffer) :
  store_bytes buf off bs = Some buf' -> List.length buf' = List.length buf.
Proof.
  intros H. apply store_bytes_inv in H as [Hle ->].
  rewrite !length_app, length_firstn, length_skipn. lia.
Qed.

Lemma load_bytes_middle (A M C : list byte) :
  load_bytes (A ++ M ++ C) (List.length A) (List.length M) = Some M.
Proof.
  unfold load_bytes. rewrite !length_app.
  destruct (Nat.leb_spec (List.length A + List.length M)
              (List.length A + (List.length M + List.length C))); [|lia].
  rewrite skipn_app, skipn_all, Nat.sub_diag. cbn [skipn app].
  rewrite firstn_app, firstn_all, Nat.sub_diag. cbn [firstn].
  now rewrite app_nil_r.
Qed.

Lemma load_bytes_frame (A M M' C : list byte) (off n : nat) :
  List.length M = List.length M' ->
  off + n <= List.length A \/ List.length A + List.length M <= off ->
  load_bytes (A ++ M ++ C) off n = load_bytes (A ++ M' ++ C) off n.
Proof.
  intros Hlen Hdisj. unfold load_bytes. rewrite !length_app, Hlen.
  destruct (off + n <=? List.length A + (List.length M' + List.length C)); [|reflexivity].
  f_equal. destruct Hdisj as [Hbefore | Hafter].
  - rewrite !skipn_app, !firstn_app, !length_skipn.
    replace (off - List.length A) with 0 by lia.
    replace (n - (List.length A - off)) with 0 by lia.
    reflexivity.
  - rewrite !skipn_app.
    rewrite (skipn_all2 A) by lia.
    rewrite (skipn_all2 M) by lia.
    rewrite (skipn_all2 M') by lia.
    now rewrite Hlen.
Qed.

Lemma buffer_split (buf : buffer) (off n : nat) :
  buf = (firstn off buf ++ firstn n (skipn off buf) ++ skipn (off + n) buf)%list.
Proof.
  rewrite <- (firstn_skipn off buf) at 1. f_equal.
  rewrite <- (firstn_skipn n (skipn off buf)) at 1. f_equal.
  rewrite skipn_skipn. f_equal. lia.
Qed.

Lemma load_store_bytes_same (buf : buffer) (off : nat) (bs : list byte) (buf' : buffer) :
  store_bytes buf off bs = Some buf' ->
  load_bytes buf' off (List.length bs) = Some bs.
Proof.
  intros H. apply store_bytes_inv in H as [Hle ->].
  assert (E : List.length (firstn off buf) = off) by (rewrite length_firstn; lia).
  generalize dependent (firstn off buf). intros A <-.
  apply load_bytes_middle.
Qed.

Lemma load_store_bytes_other (buf : buffer) (off : nat) (bs : list byte) (buf' : buffer)
      (off' n : nat) :
  store_bytes buf off bs = Some buf' ->
  off' + n <= off \/ off + List.length bs <= off' ->
  load_bytes buf' off' n = load_bytes buf off' n.
Proof.
  intros H Hdisj. apply store_bytes_inv in H as [Hle ->].
  rewrite (buffer_split buf off (List.length bs)) at 3.
  apply load_bytes_frame.
  - rewrite length_firstn, length_skipn. lia.
  - rewrite length_firstn. lia.
Qed.

(** ** Floats and vectors in a buffer *)

Lemma store_float_Some (buf : buffer) (off : nat) (f : float) :
  off + 4 <= List.length buf -> exists buf', store_float buf off f = Some buf'.
Proof.
  intros H. apply store_bytes_Some. now rewrite length_le_split.
Qed.

Lemma store_float_length (buf : buffer) (off : nat) (f : float) (buf' : buffer) :
  store_float buf off f = Some buf' -> List.length buf' = List.length buf.
Proof. apply store_bytes_length. Qed.

Lemma load_store_float_same (buf : buffer) (off : nat) (f : float) (buf' : buffer) :
  float_ok f ->
  store_float buf off f = Some buf' ->
  load_float buf' off = Some f.
Proof.
  intros Hf H. unfold load_float.
  apply load_store_bytes_same in H. rewrite length_le_split in H.
  rewrite H. cbn [bind]. rewrite le_combine_split.
  change (Z.of_nat sizeof_float * 8)%Z with 32%Z.
  now rewrite Z.mod_small by exact Hf.
Qed.

Lemma load_store_float_other (buf : buffer) (off : nat) (f : float) (buf' : buffer)
      (off' : nat) :
  store_float buf off f = Some buf' ->
  off' + 4 <= off \/ off + 4 <= off' ->
  load_float buf' off' = load_float buf off'.
Proof.
  intros H Hdisj. unfold load_float.
  erewrite load_store_bytes_other; [reflexivity | exact H |].
  rewrite length_le_split. exact Hdisj.
Qed.

(** Peel the stores of a vector write, one buffer at a time. *)
Ltac peel_stores H :=
  repeat match type of H with
         | bind _ _ = Some _ =>
             let b := fresh "b" in
             let Hs := fresh "Hs" in
             apply bind_Some in H as (b & Hs & H)
         end.

Lemma store_float3_Some (buf : buffer) (off : nat) (v : float3) :
  off + 12 <= List.length buf -> exists buf', store_float3 buf off v = Some buf'.
Proof.
  intros H. unfold store_float3.
  destruct (store_float_Some buf off (float3.x v)) as [b1 H1]; [lia|].
  pose proof (store_float_length _ _ _ _ H1) as L1.
  destruct (store_float_Some b1 (off + 4) (float3.y v)) as [b2 H2]; [lia|].
  pose proof (store_float_length _ _ _ _ H2) as L2.
  destruct (store_float_Some b2 (off + 8) (float3.z v)) as [b3 H3]; [lia|].
  exists b3. rewrite H1; cbn [bind]. rewrite H2; cbn [bind]. exact H3.
Qed.

Lemma store_float4_Some (buf : buffer) (off : nat) (v : float4) :
  off + 16 <= List.length buf -> exists buf', store_float4 buf off v = Some buf'.
Proof.
  intros H. unfold store_float4.
  destruct (store_float_Some buf off (float4.x v)) as [b1 H1]; [lia|].
  pose proof (store_float_length _ _ _ _ H1) as L1.
  destruct (store_float_Some b1 (off + 4) (float4.y v)) as [b2 H2]; [lia|].
  pose proof (store_float_length _ _ _ _ H2) as L2.
  destruct (store_float_Some b2 (off + 8) (float4.z v)) as [b3 H3]; [lia|].
  pose proof (store_float_length _ _ _ _ H3) as L3.
  destruct (store_float_Some b3 (off + 12) (float4.w v)) as [b4 H4]; [lia|].
  exists b4. rewrite H1; cbn [bind]. rewrite H2; cbn [bind].
  rewrite H3; cbn [bind]. exact H4.
Qed.

Lemma store_float3_length (buf : buffer) (off : nat) (v : float3) (buf' : buffer) :
  store_float3 buf off v = Some buf' -> List.length buf' = List.length buf.
Proof.
  unfold store_float3. intros H. peel_stores H.
  repeat match goal with
         | S : store_float _ _ _ = Some _ |- _ => apply store_float_length in S
         end.
  congruence.
Qed.

Lemma store_float4_length (buf : buffer) (off : nat) (v : float4) (buf' : buffer) :
  store_float4 buf off v = Some buf' -> List.length buf' = List.length buf.
Proof.
  unfold store_float4. intros H. peel_stores H.
  repeat match goal with
         | S : store_float _ _ _ = Some _ |- _ => apply store_float_length in S
         end.
  congruence.
Qed.

(** A load of one float is blind to a vector stored elsewhere. *)
Lemma load_store_float3_other (buf : buffer) (off : nat) (v : float3) (buf' : buffer)
      (off' : nat) :
  store_float3 buf off v = Some buf' ->
  off' + 4 <= off \/ off + 12 <= off' ->
  load_float buf' off' = load_float buf off'.
Proof.
  unfold store_float3. intros H Hdisj. peel_stores H.
  rewrite (load_store_float_other _ _ _ _ off' H) by lia.
  rewrite (load_store_float_other _ _ _ _ off' Hs0) by lia.
  apply (load_store_float_other _ _ _ _ off' Hs). lia.
Qed.

Lemma load_store_float4_other (buf : buffer) (off : nat) (v : float4) (buf' : buffer)
      (off' : nat) :
  store_float4 buf off v = Some buf' ->
  off' + 4 <= off \/ off + 16 <= off' ->
  load_float buf' off' = load_float buf off'.
Proof.
  unfold store_float4. intros H Hdisj. peel_stores H.
  rewrite (load_store_float_other _ _ _ _ off' H) by lia.
  rewrite (load_store_float_other _ _ _ _ off' Hs1) by lia.
  rewrite (load_store_float_other _ _ _ _ off' Hs0) by lia.
  apply (load_store_float_other _ _ _ _ off' Hs). lia.
Qed.

Lemma load_store_float3_same (buf : buffer) (off : nat) (v : float3) (buf' : buffer) :
  float3_ok v ->
  store_float3 buf off v = Some buf' ->
  load_float3 buf' off = Some v.
Proof.
  intros (Hx & Hy & Hz). unfold store_float3, load_float3. intros H. peel_stores H.
  rewrite (load_store_float_other _ _ _ _ off H) by lia.
  rewrite (load_store_float_other _ _ _ _ off Hs0) by lia.
  rewrite (load_store_float_same _ _ _ _ Hx Hs). cbn [bind].
  rewrite (load_store_float_other _ _ _ _ (off + 4) H) by lia.
  rewrite (load_store_float_same _ _ _ _ Hy Hs0). cbn [bind].
  rewrite (load_store_float_same _ _ _ _ Hz H). cbn [bind].
  now destruct v.
Qed.

Lemma load_store_float4_same (buf : buffer) (off : nat) (v : float4) (buf' : buffer) :
  float4_ok v ->
  store_float4 buf off v = Some buf' ->
  load_float4 buf' off = Some v.
Proof.
  intros (Hx & Hy & Hz & Hw). unfold store_float4, load_float4. intros H. peel_stores H.
  rewrite (load_store_float_other _ _ _ _ off H) by lia.
  rewrite (load_store_float_other _ _ _ _ off Hs1) by lia.
  rewrite (load_store_float_other _ _ _ _ off Hs0) by lia.
  rewrite (load_store_float_same _ _ _ _ Hx Hs). cbn [bind].
  rewrite (load_store_float_other _ _ _ _ (off + 4) H) by lia.
  rewrite (load_store_float_other _ _ _ _ (off + 4) Hs1) by lia.
  rewrite (load_store_float_same _ _ _ _ Hy Hs0). cbn [bind].
  rewrite (load_store_float_other _ _ _ _ (off + 8) H) by lia.
  rewrite (load_store_float_same _ _ _ _ Hz Hs1). cbn [bind].
  rewrite (load_store_float_same _ _ _ _ Hw H). cbn [bind].
  now destruct v.
Qed.

(** A vector read is blind to a [float4] stored after it. *)
Lemma load_float3_store_float4_after (buf : buffer) (off : nat) (v : float4)
      (buf' : buffer) (off' : nat) :
  store_float4 buf off v = Some buf' ->
  off' + 12 <= off ->
  load_float3 buf' off' = load_float3 buf off'.
Proof.
  intros H Hle. unfold load_float3.
  rewrite !(load_store_float4_other _ _ _ _ _ H) by lia.
  reflexivity.
Qed.

(** ** Sample records *)

Lemma red_at_origin_ok : VertexIn_ok red_at_origin.
Proof.
  unfold VertexIn_ok, float3_ok, float4_ok, float_ok; cbn.
  unfold float_one, float_zero. lia.
Qed.

(** The bytes of one record in a zeroed 32-byte element, under Metal's
    layout: three floats, four bytes never written, four floats. *)
Example write_red_at_unit_x :
  option_map (map byte.unsigned)
    (write_VertexIn metal_layout (repeat Byte.x00 32) 0 red_at_unit_x)
  = Some [ 0; 0; 128; 63;  0; 0; 0; 0;  0; 0; 0; 0;  0; 0; 0; 0;
           0; 0; 128; 63;  0; 0; 0; 0;  0; 0; 0; 0;  0; 0; 128; 63 ]%Z.
Proof. vm_compute. reflexivity. Qed.

(** A read returns whatever bits are stored: a colour channel of [2.0f] and
    a NaN position component come back as they are. *)
Example read_unchecked :
  let v := VertexIn.make (float3.make 0x7fc00000%Z float_zero float_zero)
                         (float4.make 0x40000000%Z float_zero float_zero float_one) in
  read_color v = (VertexIn.color v, v) /\ read_position v = (VertexIn.position v, v).
Proof. split; reflexivity. Qed.

(* ===================================================================== *)
(** * The claims *)
(* ===================================================================== *)

(** C1.  In [VertexIn], attribute index 0 is bound to [position] and index 1
    to [color]; on every instance index 0 resolves to the position value and
    index 1 to the colour value, and no index from 2 on is bound. *)
Theorem attribute_indices_bound (v : VertexIn) :
  option_map field_name (attribute_field VertexIn_decl 0) = Some "position"%string /\
  option_map field_name (attribute_field VertexIn_decl 1) = Some "color"%string /\
  resolve_attribute v 0 = Some (Vfloat3 (VertexIn.position v)) /\
  resolve_attribute v 1 = Some (Vfloat4 (VertexIn.color v)) /\
  bound_attributes VertexIn_decl = [0; 1] /\
  (forall i, attribute_field VertexIn_decl (S (S i)) = None) /\
  (forall i, resolve_attribute v (S (S i)) = None).
Proof.
  repeat split; try reflexivity; intros i; reflexivity.
Qed.

(** C2, as stated, fails: under Metal's sizes the [VertexIn] record is not
    3*4 + 4*4 = 28 bytes long. *)
Lemma VertexIn_size_is_not_28 :
  struct_size metal_layout VertexIn_decl <> 3 * 4 + 4 * 4.
Proof. vm_compute. discriminate. Qed.

(** C2, amended.  [VertexIn] is 32 bytes: its two members are 16 bytes each
    ([float3] has the size and alignment of [float4]), [position] at offset
    0 and [color] at offset 16, with no padding between or after the members;
    28 = 3*4 + 4*4 is the amount of component data, and the size of the
    record only when its vectors are tightly packed.  [VertexOut] is
    4*4 + 4*4 = 32 bytes. *)
Theorem record_sizes :
  struct_size metal_layout VertexIn_decl = 32 /\
  sum_field_sizes metal_layout VertexIn_decl = 32 /\
  field_offset metal_layout VertexIn_decl "position" = Some 0 /\
  field_offset metal_layout VertexIn_decl "color" = Some 16 /\
  data_bytes VertexIn_decl = 3 * 4 + 4 * 4 /\
  struct_size packed_layout VertexIn_decl = 3 * 4 + 4 * 4 /\
  struct_size metal_layout VertexOut_decl = 4 * 4 + 4 * 4 /\
  sum_field_sizes metal_layout VertexOut_decl = 4 * 4 + 4 * 4 /\
  data_bytes VertexOut_decl = 4 * 4 + 4 * 4 /\
  struct_size packed_layout VertexOut_decl = 4 * 4 + 4 * 4.
Proof. repeat split; reflexivity. Qed.

(** C3.  [VertexIn.position] is a 3-component float vector and
    [VertexIn.color] a 4-component one; both members of [VertexOut] are
    4-component float vectors, its [position] being the member marked as the
    rasterizer's position.  The values the members hold have the declared
    types. *)
Theorem member_types (vi : VertexIn) (vo : VertexOut) :
  option_map field_type (find_field VertexIn_decl "position") = Some ty_float3 /\
  option_map field_type (find_field VertexIn_decl "color") = Some ty_float4 /\
  option_map field_type (find_field VertexOut_decl "position") = Some ty_float4 /\
  option_map field_type (find_field VertexOut_decl "color") = Some ty_float4 /\
  components ty_float3 = 3 /\ scalar_of ty_float3 = kind_float /\
  components ty_float4 = 4 /\ scalar_of ty_float4 = kind_float /\
  option_map type_of_value (VertexIn_field vi "position") = Some ty_float3 /\
  option_map type_of_value (VertexIn_field vi "color") = Some ty_float4 /\
  option_map type_of_value (VertexOut_field vo "position") = Some ty_float4 /\
  option_map type_of_value (VertexOut_field vo "color") = Some ty_float4 /\
  option_map field_annot (find_field VertexOut_decl "position")
  = Some (Some position_semantic).
Proof. repeat split; reflexivity. Qed.

(** C4.  Writing a record into a buffer through the layout of [VertexIn] and
    reading it back through the same layout returns the record written, bit
    for bit: the write succeeds whenever the element fits in the buffer, and
    the read of the written buffer yields the same position and colour. *)
Theorem write_read_VertexIn (L : type_layout) (buf : buffer) (base : nat) (v : VertexIn) :
  layout_ok L ->
  VertexIn_ok v ->
  base + struct_size L VertexIn_decl <= List.length buf ->
  exists buf',
    write_VertexIn L buf base v = Some buf' /\
    List.length buf' = List.length buf /\
    read_VertexIn L buf' base = Some v.
Proof.
  intros HL [Hp Hc] Hfit.
  pose proof (VertexIn_color_after_position L HL) as Hafter.
  pose proof (VertexIn_color_fits L HL) as Hin.
  unfold write_VertexIn, read_VertexIn.
  rewrite VertexIn_position_offset, VertexIn_color_offset. cbn [bind].
  set (co := align_up (size_of L ty_float3) (align_of L ty_float4)) in *.
  destruct (store_float3_Some buf (base + 0) (VertexIn.position v)) as [b1 H1]; [lia|].
  pose proof (store_float3_length _ _ _ _ H1) as L1.
  destruct (store_float4_Some b1 (base + co) (VertexIn.color v)) as [b2 H2]; [lia|].
  pose proof (store_float4_length _ _ _ _ H2) as L2.
  exists b2. rewrite H1. cbn [bind]. split; [exact H2|]. split; [congruence|].
  rewrite (load_float3_store_float4_after _ _ _ _ (base + 0) H2) by lia.
  rewrite (load_store_float3_same _ _ _ _ Hp H1). cbn [bind].
  rewrite (load_store_float4_same _ _ _ _ Hc H2). cbn [bind].
  now destruct v.
Qed.

Lemma write_read_VertexIn_witness :
  exists buf',
    write_VertexIn metal_layout (repeat Byte.x00 96) 32 red_at_origin = Some buf' /\
    List.length buf' = List.length (repeat Byte.x00 96) /\
    read_VertexIn metal_layout buf' 32 = Some red_at_origin.
Proof.
  apply (write_read_VertexIn metal_layout (repeat Byte.x00 96) 32 red_at_origin).
  - exact metal_layout_ok.
  - exact red_at_origin_ok.
  - vm_compute. lia.
Defined.

(** C5.  The identity-like stage, which appends [w = 1] to the position, maps
    the record with position (0,0,0) and colour (1,0,0,1) to the record with
    position (0,0,0,1) and colour (1,0,0,1). *)
Theorem identity_stage_scenario :
  identity_stage
    (VertexIn.make (float3.make float_zero float_zero float_zero)
                   (float4.make float_one float_zero float_zero float_one))
  = VertexOut.make (float4.make float_zero float_zero float_zero float_one)
                   (float4.make float_one float_zero float_zero float_one).
Proof. reflexivity. Qed.

(** C7.  In both records [position] is declared first and [color] second, and
    under every layout the position bytes of an element precede its colour
    bytes: [position] sits at offset 0 and [color] after all of its
    components. *)
Theorem position_declared_before_color (L : type_layout) :
  layout_ok L ->
  field_names VertexIn_decl = ["position"; "color"]%string /\
  field_names VertexOut_decl = ["position"; "color"]%string /\
  field_index_of VertexIn_decl "position" = Some 0 /\
  field_index_of VertexIn_decl "color" = Some 1 /\
  field_index_of VertexOut_decl "position" = Some 0 /\
  field_index_of VertexOut_decl "color" = Some 1 /\
  (exists ci, field_offset L VertexIn_decl "position" = Some 0 /\
              field_offset L VertexIn_decl "color" = Some ci /\
              0 + components ty_float3 * sizeof_float <= ci) /\
  (exists co, field_offset L VertexOut_decl "position" = Some 0 /\
              field_offset L VertexOut_decl "color" = Some co /\
              0 + components ty_float4 * sizeof_float <= co).
Proof.
  intros HL. repeat split; try reflexivity.
  - eexists. split; [apply VertexIn_position_offset|].
    split; [apply VertexIn_color_offset|].
    exact (VertexIn_color_after_position L HL).
  - eexists. split; [apply VertexOut_position_offset|].
    split; [apply VertexOut_color_offset|].
    exact (VertexOut_color_after_position L HL).
Qed.

Lemma position_declared_before_color_witness :
  field_names VertexIn_decl = ["position"; "color"]%string /\
  field_names VertexOut_decl = ["position"; "color"]%string /\
  field_index_of VertexIn_decl "position" = Some 0 /\
  field_index_of VertexIn_decl "color" = Some 1 /\
  field_index_of VertexOut_decl "position" = Some 0 /\
  field_index_of VertexOut_decl "color" = Some 1 /\
  (exists ci, field_offset metal_layout VertexIn_decl "position" = Some 0 /\
              field_offset metal_layout VertexIn_decl "color" = Some ci /\
              0 + components ty_float3 * sizeof_float <= ci) /\
  (exists co, field_offset metal_layout VertexOut_decl "position" = Some 0 /\
              field_offset metal_layout VertexOut_decl "color" = Some co /\
              0 + components ty_float4 * sizeof_float <= co).
Proof.
  apply (position_declared_before_color metal_layout).
  intros []; cbv; lia.
Defined.

(** C8.  Reading a member of a [VertexIn] is pure: for every record, whatever
    bits it holds, the read returns the member and leaves the record as it
    was; member access never fails, so nothing is validated; and the record
    declares no member function. *)
Theorem member_reads_are_pure (p : float3) (c : float4) :
  let v := VertexIn.make p c in
  read_position v = (p, v) /\
  read_color v = (c, v) /\
  VertexIn.position (snd (read_position v)) = p /\
  VertexIn.color (snd (read_position v)) = c /\
  VertexIn.position (snd (read_color v)) = p /\
  VertexIn.color (snd (read_color v)) = c /\
  VertexIn_field v "position" = Some (Vfloat3 p) /\
  VertexIn_field v "color" = Some (Vfloat4 c) /\
  struct_methods VertexIn_decl = [].
Proof. repeat split. Qed.

(** C9.  Building a [VertexIn] from a position and a colour and projecting
    its members returns that position and that colour, and likewise for
    [VertexOut]. *)
Theorem make_then_project (p : float3) (c q d : float4) :
  VertexIn.position (VertexIn.make p c) = p /\
  VertexIn.color (VertexIn.make p c) = c /\
  VertexOut.position (VertexOut.make q d) = q /\
  VertexOut.color (VertexOut.make q d) = d.
Proof. repeat split. Qed.

(** C10.  Both members of [VertexIn] carry an attribute annotation, 0 and 1;
    in [VertexOut] the [position] member, and it alone, carries the
    [[[position]]] annotation, and [color] carries no annotation; no member of
    [VertexOut] is an attribute and no member of [VertexIn] is the position
    semantic. *)
Theorem annotations_by_side :
  map field_annot (struct_fields VertexIn_decl)
  = [Some (attribute 0); Some (attribute 1)] /\
  map field_annot (struct_fields VertexOut_decl)
  = [Some position_semantic; None] /\
  forallb is_attribute (struct_fields VertexIn_decl) = true /\
  filter has_position_semantic (struct_fields VertexIn_decl) = [] /\
  filter is_attribute (struct_fields VertexOut_decl) = [] /\
  map field_name (filter has_position_semantic (struct_fields VertexOut_decl))
  = ["position"%string] /\
  option_map field_annot (find_field VertexOut_decl "color") = Some None.
Proof. repeat split. Qed.

(* ===================================================================== *)
(** * Further properties *)
(* ===================================================================== *)

(** ** Inclusion of the header *)

Lemma defined_define (m : string) (st : unit_state) : defined m (define m st) = true.
Proof.
  unfold define. destruct (defined m st) eqn:E; [exact E|].
  unfold defined. cbn. now rewrite String.eqb_refl.
Qed.

Lemma struct_declared_define (m n : string) (st : unit_state) :
  struct_declared n (define m st) = struct_declared n st.
Proof. unfold define. now destruct (defined m st). Qed.

Lemma using_namespace_inv (n : string) (s s' : unit_state) :
  using_namespace n s = Some s' ->
  namespace_declared n s = true /\
  s' = mk_unit (macros s) (namespaces s) (used_namespaces s ++ [n]) (declared s).
Proof.
  unfold using_namespace. destruct (namespace_declared n s); [|discriminate].
  now intros [= <-].
Qed.

Lemma declare_struct_inv (d : struct_decl) (s s' : unit_state) :
  declare_struct d s = Some s' ->
  struct_declared (struct_name d) s = false /\
  s' = mk_unit (macros s) (namespaces s) (used_namespaces s) (declared s ++ [d]).
Proof.
  unfold declare_struct. destruct (struct_declared (struct_name d) s); [discriminate|].
  now intros [= <-].
Qed.

Lemma struct_declared_app (n : string) (m ns us : list string) (ds : list struct_decl)
      (d : struct_decl) :
  struct_declared n (mk_unit m ns us (ds ++ [d]))
  = struct_declared n (mk_unit m ns us ds) || String.eqb (struct_name d) n.
Proof.
  unfold struct_declared. cbn [declared]. rewrite existsb_app. cbn.
  now rewrite orb_false_r.
Qed.

(** A struct of the header that the unit already defines stops the body. *)
Lemma header_body_conflict (sys : string -> unit_state -> option unit_state)
      (st : unit_state) :
  keeps_structs sys ->
  struct_declared "VertexIn" st = true \/ struct_declared "VertexOut" st = true ->
  header_body sys st = None.
Proof.
  intros K Hdecl. unfold header_body.
  destruct (sys "simd/simd.h"%string (define guard st)) as [s1|] eqn:E1; [|reflexivity].
  cbn [bind].
  destruct (sys "metal_stdlib"%string s1) as [s2|] eqn:E2; [|reflexivity].
  cbn [bind].
  destruct (using_namespace "metal" s2) as [s3|] eqn:E3; [|reflexivity].
  cbn [bind].
  apply using_namespace_inv in E3 as [_ ->].
  assert (Hkeep : forall n, struct_declared n st = true ->
                            struct_declared n s2 = true).
  { intros n Hn. apply (K _ _ _ n E2). apply (K _ _ _ n E1).
    now rewrite struct_declared_define. }
  destruct (declare_struct VertexIn_decl _) as [s4|] eqn:E4; [|reflexivity].
  cbn [bind].
  apply declare_struct_inv in E4 as [Hin ->].
  destruct Hdecl as [Hd | Hd].
  - apply Hkeep in Hd. unfold struct_declared in Hin, Hd. cbn in Hin. congruence.
  - apply Hkeep in Hd. unfold declare_struct.
    rewrite struct_declared_app.
    unfold struct_declared in Hd |- *. cbn [declared struct_name VertexOut_decl] in *.
    now rewrite Hd.
Qed.

(** X1.  Including the header a second time changes nothing: whatever the
    first inclusion gives, success or failure, including it again gives the
    same, as long as the system headers leave the guard macro defined. *)
Theorem include_twice (sys : string -> unit_state -> option unit_state) (st : unit_state) :
  keeps_guard sys ->
  bind (shader_types_h sys st) (shader_types_h sys) = shader_types_h sys st.
Proof.
  intros K. destruct (shader_types_h sys st) as [st1|] eqn:E; [|reflexivity].
  cbn [bind]. unfold shader_types_h in E |- *.
  destruct (defined guard st) eqn:G.
  - injection E as <-. now rewrite G.
  - unfold header_body in E.
    apply bind_Some in E as (s1 & E1 & E).
    apply bind_Some in E as (s2 & E2 & E).
    apply bind_Some in E as (s3 & E3 & E).
    apply bind_Some in E as (s4 & E4 & E).
    apply using_namespace_inv in E3 as [_ ->].
    apply declare_struct_inv in E4 as [_ ->].
    apply declare_struct_inv in E as [_ ->].
    assert (G2 : defined guard s2 = true).
    { apply (K _ _ _ E2), (K _ _ _ E1), defined_define. }
    unfold defined in G2 |- *. cbn [macros]. now rewrite G2.
Qed.

Lemma plain_sys_keeps_guard : keeps_guard plain_sys.
Proof.
  intros h s s' E G. unfold plain_sys in E.
  destruct (String.eqb h "metal_stdlib"); injection E as <-; exact G.
Qed.

Lemma plain_sys_keeps_structs : keeps_structs plain_sys.
Proof.
  intros h s s' n E G. unfold plain_sys in E.
  destruct (String.eqb h "metal_stdlib"); injection E as <-; exact G.
Qed.

Lemma include_twice_witness :
  bind (shader_types_h plain_sys empty_unit) (shader_types_h plain_sys)
  = shader_types_h plain_sys empty_unit.
Proof.
  apply (include_twice plain_sys empty_unit). exact plain_sys_keeps_guard.
Defined.

(** X3.  Without the guard the header cannot be included twice: running the
    guarded lines again on their own result is an error, the second
    [VertexIn] being a redefinition, whenever the system headers remove no
    struct definition. *)
Theorem unguarded_body_twice_fails (sys : string -> unit_state -> option unit_state)
        (st : unit_state) :
  keeps_structs sys ->
  bind (header_body sys st) (header_body sys) = None.
Proof.
  intros K. destruct (header_body sys st) as [st1|] eqn:E; [|reflexivity].
  cbn [bind]. apply header_body_conflict; [exact K|]. left.
  unfold header_body in E.
  apply bind_Some in E as (s1 & E1 & E).
  apply bind_Some in E as (s2 & E2 & E).
  apply bind_Some in E as (s3 & E3 & E).
  apply bind_Some in E as (s4 & E4 & E).
  apply declare_struct_inv in E4 as [_ ->].
  apply declare_struct_inv in E as [_ ->].
  cbn [macros namespaces used_namespaces declared].
  rewrite !struct_declared_app.
  change (String.eqb (struct_name VertexIn_decl) "VertexIn") with true.
  now rewrite orb_true_r.
Qed.

Lemma unguarded_body_twice_fails_witness :
  bind (header_body plain_sys empty_unit) (header_body plain_sys) = None.
Proof.
  apply (unguarded_body_twice_fails plain_sys empty_unit).
  exact plain_sys_keeps_structs.
Defined.

(** X4.  Including the header into a unit that already defines a struct
    named [VertexIn] or [VertexOut], with the guard not defined, is an error
    and not a silent replacement. *)
Theorem inclusion_conflict (sys : string -> unit_state -> option unit_state)
        (st : unit_state) :
  keeps_structs sys ->
  defined guard st = false ->
  struct_declared "VertexIn" st = true \/ struct_declared "VertexOut" st = true ->
  shader_types_h sys st = None.
Proof.
  intros K G Hdecl. unfold shader_types_h. rewrite G.
  now apply header_body_conflict.
Qed.

Lemma inclusion_conflict_witness :
  shader_types_h plain_sys (mk_unit [] [] [] [mk_struct "VertexOut" [] []]) = None.
Proof.
  apply (inclusion_conflict plain_sys).
  - exact plain_sys_keeps_structs.
  - reflexivity.
  - right. reflexivity.
Defined.

(** ** Arrays of records: where the members are *)

Lemma VertexOut_size (L : type_layout) :
  struct_size L VertexOut_decl
  = align_up (align_up (size_of L ty_float4) (align_of L ty_float4) + size_of L ty_float4)
             (Nat.max (align_of L ty_float4) (Nat.max (align_of L ty_float4) 1)).
Proof. unfold struct_size, struct_align. cbn. now rewrite align_up_0. Qed.

Lemma VertexOut_color_fits (L : type_layout) :
  layout_ok L ->
  align_up (size_of L ty_float4) (align_of L ty_float4) + 16
  <= struct_size L VertexOut_decl.
Proof.
  intros HL. rewrite VertexOut_size.
  destruct (HL ty_float4) as [H4 _]. unfold sizeof_float in H4; cbn in H4.
  match goal with |- _ <= align_up ?n ?a => pose proof (align_up_ge n a) end.
  lia.
Qed.

(** The only members an array element has, and where they are. *)
Lemma member_range_VertexIn (L : type_layout) (i : nat) (n : string) (r : nat * nat) :
  member_range L VertexIn_decl i n = Some r ->
  (n = "position"%string /\ r = (element_base L VertexIn_decl i + 0, 12)) \/
  (n = "color"%string /\
   r = (element_base L VertexIn_decl i
        + align_up (size_of L ty_float3) (align_of L ty_float4), 16)).
Proof.
  unfold member_range, find_field, field_offset. cbn -[String.eqb align_up].
  rewrite align_up_0.
  destruct (String.eqb_spec "position" n) as [<- | _]; cbn -[String.eqb align_up].
  - intros [= <-]. now left.
  - destruct (String.eqb_spec "color" n) as [<- | _]; cbn -[String.eqb align_up];
      [|discriminate].
    intros [= <-]. now right.
Qed.

Lemma member_range_VertexOut (L : type_layout) (i : nat) (n : string) (r : nat * nat) :
  member_range L VertexOut_decl i n = Some r ->
  (n = "position"%string /\ r = (element_base L VertexOut_decl i + 0, 16)) \/
  (n = "color"%string /\
   r = (element_base L VertexOut_decl i
        + align_up (size_of L ty_float4) (align_of L ty_float4), 16)).
Proof.
  unfold member_range, find_field, field_offset. cbn -[String.eqb align_up].
  rewrite align_up_0.
  destruct (String.eqb_spec "position" n) as [<- | _]; cbn -[String.eqb align_up].
  - intros [= <-]. now left.
  - destruct (String.eqb_spec "color" n) as [<- | _]; cbn -[String.eqb align_up];
      [|discriminate].
    intros [= <-]. now right.
Qed.

(** The component data of a member lies inside its own array element. *)
Lemma member_range_inside (L : type_layout) (d : struct_decl) (i : nat) (n : string)
      (r : nat * nat) :
  layout_ok L ->
  d = VertexIn_decl \/ d = VertexOut_decl ->
  member_range L d i n = Some r ->
  element_base L d i <= fst r /\ fst r + snd r <= element_base L d (S i).
Proof.
  intros HL [-> | ->] Hr.
  - pose proof (VertexIn_color_after_position L HL) as Ha.
    pose proof (VertexIn_color_fits L HL) as Hf.
    apply member_range_VertexIn in Hr as [[_ ->] | [_ ->]];
      unfold element_base in *; cbn [fst snd]; lia.
  - pose proof (VertexOut_color_after_position L HL) as Ha.
    pose proof (VertexOut_color_fits L HL) as Hf.
    apply member_range_VertexOut in Hr as [[_ ->] | [_ ->]];
      unfold element_base in *; cbn [fst snd]; lia.
Qed.

Lemma element_base_mono (L : type_layout) (d : struct_decl) (i j : nat) :
  i < j -> element_base L d (S i) <= element_base L d j.
Proof. unfold element_base. nia. Qed.

(** X5.  In an array of [VertexIn] or of [VertexOut], under every layout
    that leaves room for the components, the component data of two different
    members never overlap, be they members of one element or of two. *)
Theorem array_members_disjoint (L : type_layout) (d : struct_decl) (i j : nat)
        (n1 n2 : string) (r1 r2 : nat * nat) :
  layout_ok L ->
  d = VertexIn_decl \/ d = VertexOut_decl ->
  member_range L d i n1 = Some r1 ->
  member_range L d j n2 = Some r2 ->
  i <> j \/ n1 <> n2 ->
  ranges_disjoint r1 r2.
Proof.
  intros HL Hd H1 H2 Hne.
  destruct (Nat.lt_total i j) as [Hlt | [<- | Hgt]].
  - left. pose proof (member_range_inside L d i n1 r1 HL Hd H1) as [_ E1].
    pose proof (member_range_inside L d j n2 r2 HL Hd H2) as [B2 _].
    pose proof (element_base_mono L d i j Hlt). lia.
  - destruct Hne as [Hne | Hne]; [contradiction|].
    destruct Hd as [-> | ->].
    + pose proof (VertexIn_color_after_position L HL) as Ha.
      apply member_range_VertexIn in H1 as [[-> ->] | [-> ->]];
        apply member_range_VertexIn in H2 as [[-> ->] | [-> ->]];
        try contradiction; unfold ranges_disjoint; cbn [fst snd]; lia.
    + pose proof (VertexOut_color_after_position L HL) as Ha.
      apply member_range_VertexOut in H1 as [[-> ->] | [-> ->]];
        apply member_range_VertexOut in H2 as [[-> ->] | [-> ->]];
        try contradiction; unfold ranges_disjoint; cbn [fst snd]; lia.
  - right. pose proof (member_range_inside L d j n2 r2 HL Hd H2) as [_ E2].
    pose proof (member_range_inside L d i n1 r1 HL Hd H1) as [B1 _].
    pose proof (element_base_mono L d j i Hgt). lia.
Qed.

Lemma array_members_disjoint_witness :
  ranges_disjoint (3 * 32 + 16, 16) (4 * 32 + 0, 12).
Proof.
  apply (array_members_disjoint metal_layout VertexIn_decl 3 4 "color" "position").
  - exact metal_layout_ok.
  - left. reflexivity.
  - reflexivity.
  - reflexivity.
  - left. discriminate.
Defined.

(** ** Arrays of records: alignment *)

Lemma align_up_divide (n a : nat) : Nat.divide a (align_up n a).
Proof. unfold align_up. apply Nat.divide_factor_r. Qed.

Lemma pow2_divide (k l : nat) : k <= l -> Nat.divide (2 ^ k) (2 ^ l).
Proof.
  intros H. exists (2 ^ (l - k)). rewrite <- Nat.pow_add_r. f_equal. lia.
Qed.

Lemma pow2_pos (k : nat) : 1 <= 2 ^ k.
Proof. pose proof (Nat.pow_nonzero 2 k). lia. Qed.

(** Among powers of two the largest is a multiple of each. *)
Lemma pow2_divide_max (k l : nat) :
  Nat.divide (2 ^ k) (Nat.max (2 ^ k) (Nat.max (2 ^ l) 1)) /\
  Nat.divide (2 ^ l) (Nat.max (2 ^ k) (Nat.max (2 ^ l) 1)).
Proof.
  pose proof (pow2_pos l) as Hl.
  rewrite (Nat.max_l (2 ^ l) 1) by exact Hl.
  destruct (Nat.le_gt_cases k l) as [Hkl | Hlk].
  - rewrite Nat.max_r by (apply Nat.pow_le_mono_r; lia).
    split; [now apply pow2_divide | apply Nat.divide_refl].
  - rewrite Nat.max_l by (apply Nat.pow_le_mono_r; lia).
    split; [apply Nat.divide_refl | apply pow2_divide; lia].
Qed.

Lemma struct_size_divide (L : type_layout) (d : struct_decl) :
  Nat.divide (struct_align L d) (struct_size L d).
Proof. apply align_up_divide. Qed.

(** X6.  In an array of [VertexIn] or of [VertexOut], under every layout
    whose alignments are powers of two, each member of each element starts at
    a multiple of the alignment of its type. *)
Theorem array_members_aligned (L : type_layout) (d : struct_decl) (i : nat)
        (n : string) (r : nat * nat) (f : field_decl) :
  pow2_aligned L ->
  d = VertexIn_decl \/ d = VertexOut_decl ->
  member_range L d i n = Some r ->
  find_field d n = Some f ->
  Nat.divide (align_of L (field_type f)) (fst r).
Proof.
  intros HP Hd Hr Hf.
  destruct (HP ty_float3) as [k3 E3], (HP ty_float4) as [k4 E4].
  pose proof (struct_size_divide L d) as Hsize.
  destruct Hd as [-> | ->].
  - assert (Hbase : forall t, Nat.divide (align_of L t) (element_base L VertexIn_decl i)).
    { intros t. unfold element_base. apply Nat.divide_mul_r.
      apply Nat.divide_trans with (struct_align L VertexIn_decl); [|exact Hsize].
      unfold struct_align; cbn -[Nat.max]. rewrite E3, E4.
      destruct t; rewrite ?E3, ?E4; apply (pow2_divide_max k3 k4). }
    apply member_range_VertexIn in Hr as [[-> ->] | [-> ->]];
      cbn in Hf; injection Hf as <-; cbn [fst field_type];
      (apply Nat.divide_add_r; [apply Hbase|]);
      [apply Nat.divide_0_r | apply align_up_divide].
  - assert (Hbase : Nat.divide (align_of L ty_float4) (element_base L VertexOut_decl i)).
    { unfold element_base. apply Nat.divide_mul_r.
      apply Nat.divide_trans with (struct_align L VertexOut_decl); [|exact Hsize].
      unfold struct_align; cbn -[Nat.max]. rewrite E4.
      apply (pow2_divide_max k4 k4). }
    apply member_range_VertexOut in Hr as [[-> ->] | [-> ->]];
      cbn in Hf; injection Hf as <-; cbn [fst field_type];
      (apply Nat.divide_add_r; [apply Hbase|]);
      [apply Nat.divide_0_r | apply align_up_divide].
Qed.

Lemma metal_layout_pow2 : pow2_aligned metal_layout.
Proof. intros []; exists 4; reflexivity. Qed.

Lemma array_members_aligned_witness :
  Nat.divide 16 (5 * 32 + 16).
Proof.
  apply (array_members_aligned metal_layout VertexIn_decl 5 "color" (5 * 32 + 16, 16)
           (mk_field "color" ty_float4 (Some (attribute 1)))).
  - exact metal_layout_pow2.
  - left. reflexivity.
  - reflexivity.
  - reflexivity.
Defined.
